(** * BLE notification adapter (src/ble/adapter.c): framing of notify events

    A shallow embedding of [on_notify_cb], [adapter_set_pipe] and
    [adapter_get_callbacks], and the properties of the frames they put on
    the pipe.

    Conventions of the embedding:
    - a byte is a [Z]; an object of [n] bytes is a [list Z] of length [n];
    - C integers are [Z], every conversion to [uint16_t] is written out
      ([to_uint16]);
    - the 512-byte stack buffer is a list of cells, a cell being [None]
      until something has been copied into it;
    - what C leaves undefined (a copy past the end of the buffer, a read
      past the end of the source) is the outcome [Undefined];
    - the process-wide descriptor [g_pipe_fd], the [write] calls issued
      so far and the callback tables in memory form the [world]. *)

From Stdlib Require Import ZArith Lia.
From stdpp Require Import gmap strings list fin_maps.

Local Open Scope Z_scope.

(** ** Object representations *)

(** Byte order of the host: [memcpy] of an integer object copies its
    bytes in this order. *)
Inductive byte_order : Type := LittleEndian | BigEndian.

Module Repr.

(** The [n] low bytes of [v], least significant first. *)
Fixpoint le_bytes (n : nat) (v : Z) : list Z :=
  match n with
  | O => []
  | S k => v mod 256 :: le_bytes k (v / 256)
  end.

(** The integer whose bytes, least significant first, are [bs]. *)
Fixpoint le_value (bs : list Z) : Z :=
  match bs with
  | [] => 0
  | b :: rest => b + 256 * le_value rest
  end.

(** The [n]-byte object representation of the unsigned integer [v]. *)
Definition object_repr (o : byte_order) (n : nat) (v : Z) : list Z :=
  match o with
  | LittleEndian => le_bytes n v
  | BigEndian => rev (le_bytes n v)
  end.

(** The unsigned integer an object representation stands for. *)
Definition object_value (o : byte_order) (bs : list Z) : Z :=
  match o with
  | LittleEndian => le_value bs
  | BigEndian => le_value (rev bs)
  end.

End Repr.

(** Conversion to [uint16_t]. *)
Definition to_uint16 (z : Z) : Z := z mod 65536.

(** ** Outcomes *)

Inductive undefined : Type :=
| BufferOverflow      (* a copy past the end of the destination array *)
| ReadOutOfBounds     (* a read past the end of the source object *)
| IndeterminateRead   (* a cell handed to write() that was never filled *)
| InvalidPointer.     (* a store through a pointer to no object *)

Inductive outcome (A : Type) : Type :=
| Done (a : A)
| Undefined (u : undefined).
Arguments Done {A} a.
Arguments Undefined {A} u.

#[global] Instance outcome_ret : MRet outcome := fun A a => Done a.
#[global] Instance outcome_bind : MBind outcome := fun A B k c =>
  match c with
  | Done a => k a
  | Undefined u => Undefined u
  end.

(** ** Memory *)

(** An array of bytes, each cell indeterminate ([None]) until written. *)
Definition buffer : Type := list (option Z).

(** [uint8_t buf[n];] *)
Definition uninitialised (n : nat) : buffer := replicate n None.

(** [memcpy(dst + off, src, n)]. *)
Definition memcpy (dst : buffer) (off : Z) (src : list Z) (n : Z)
  : outcome buffer :=
  if Z.of_nat (length dst) <? off + n then Undefined BufferOverflow
  else if Z.of_nat (length src) <? n then Undefined ReadOutOfBounds
  else Done (take (Z.to_nat off) dst
             ++ (Some <$> take (Z.to_nat n) src)
             ++ drop (Z.to_nat (off + n)) dst).

(** ** Types of the adapter and of the kindlebt headers *)

(** [event_header_t], a packed struct: [uint8_t type; uint16_t len;]. *)
Record event_header_t : Type := { type : Z; len : Z }.

(** The packed struct has no padding: one byte, then two. *)
Definition sizeof_event_header_t : Z := 1 + 2.

Definition EVENT_NOTIFY : Z := 1.
Definition EVENT_CONNECT : Z := 2.
Definition EVENT_DISCONNECT : Z := 3.

(** Modelled from the spec: the kindlebt headers are not part of the
    sources. The blob of a characteristic value is a size and a pointer
    to the bytes; a null pointer is [None], and [Some region] gives the
    bytes readable at the pointer. The fields are [size] and [data] in
    the headers. *)
Record bleGattBlobValue_t : Type :=
  { blob_size : Z; blob_data : option (list Z) }.

Record bleGattCharacteristicsValue_t : Type :=
  { blobValue : bleGattBlobValue_t }.

(** A blob is well formed when its size fits the 16-bit field and the
    pointer, when not null, points to exactly that many bytes. *)
Definition blob_wf (b : bleGattBlobValue_t) : Prop :=
  0 <= blob_size b <= 65535 /\
  match blob_data b with
  | Some region => Z.of_nat (length region) = blob_size b
  | None => True
  end.

(** Function pointers that a callback slot can hold. *)
Inductive fn_ptr : Type :=
| fn_on_notify_cb
| fn_other (id : positive).

#[global] Instance fn_ptr_eq_dec : EqDecision fn_ptr.
Proof. solve_decision. Defined.

(** Modelled from the spec: [bleGattClientCallbacks_t] is declared in the
    kindlebt headers, which are not part of the sources. The struct is a
    finite map from the names of its callback slots to what they hold. *)
Abbreviation bleGattClientCallbacks_t := (gmap string fn_ptr).

(** ** The world *)

Record write_call : Type := { w_fd : Z; w_bytes : list Z }.

Record world : Type :=
  { g_pipe_fd : Z;                              (* static int g_pipe_fd *)
    pipe_writes : list write_call;              (* write() calls, oldest first *)
    memory : gmap positive bleGattClientCallbacks_t }.

(** [static int g_pipe_fd = -1;], nothing written, no table allocated. *)
Definition initial_world : world :=
  {| g_pipe_fd := -1; pipe_writes := []; memory := ∅ |}.

(** The world after one more [write] call. *)
Definition emit (w : world) (fd : Z) (bytes : list Z) : world :=
  {| g_pipe_fd := g_pipe_fd w;
     pipe_writes := pipe_writes w ++ [{| w_fd := fd; w_bytes := bytes |}];
     memory := memory w |}.

(** [write(fd, buf, count)]; its result is ignored by the adapter. *)
Definition write (fd : Z) (buf : buffer) (count : Z) (w : world)
  : outcome world :=
  if Z.of_nat (length buf) <? count then Undefined ReadOutOfBounds
  else match mapM id (take (Z.to_nat count) buf) with
       | Some bytes => Done (emit w fd bytes)
       | None => Undefined IndeterminateRead
       end.

(** ** The platform

    Host byte order and [sizeof(bleConnHandle)] come with the target and
    the kindlebt headers, which are not part of the sources. *)
Class platform : Type :=
  { order : byte_order;
    sizeof_bleConnHandle : nat }.

(** The target the concrete scenarios are about: a little-endian host
    with 4-byte connection handles. *)
Definition kindle : platform :=
  {| order := LittleEndian; sizeof_bleConnHandle := 4 |}.

Section Adapter.

Context {P : platform}.

(** The bytes of a header object in memory. *)
Definition header_repr (h : event_header_t) : list Z :=
  Repr.object_repr order 1 (type h) ++ Repr.object_repr order 2 (len h).

Definition on_notify_cb (conn_handle : Z)
    (gatt_characteristics : bleGattCharacteristicsValue_t) (w : world)
  : outcome world :=
  if g_pipe_fd w <? 0 then Done w else
  match blob_data (blobValue gatt_characteristics) with
  | None => Done w
  | Some region =>
    let data_len := to_uint16 (blob_size (blobValue gatt_characteristics)) in
    let payload_len :=
      to_uint16 (Z.of_nat sizeof_bleConnHandle + 2 + data_len) in
    let header := {| type := EVENT_NOTIFY; len := payload_len |} in
    let buf := uninitialised 512 in
    if sizeof_event_header_t + payload_len >? Z.of_nat (length buf)
    then Done w
    else
      let ptr := 0 in
      buf ← memcpy buf ptr (header_repr header) sizeof_event_header_t;
      let ptr := ptr + sizeof_event_header_t in
      buf ← memcpy buf ptr
              (Repr.object_repr order sizeof_bleConnHandle conn_handle)
              (Z.of_nat sizeof_bleConnHandle);
      let ptr := ptr + Z.of_nat sizeof_bleConnHandle in
      buf ← memcpy buf ptr (Repr.object_repr order 2 data_len) 2;
      let ptr := ptr + 2 in
      buf ← memcpy buf ptr region data_len;
      let ptr := ptr + data_len in
      write (g_pipe_fd w) buf (ptr - 0) w
  end.

(** The frame of a notify event as the wire carries it: header, handle,
    data length, data. *)
Definition notify_frame (conn_handle : Z) (payload : list Z) : list Z :=
  header_repr
    {| type := EVENT_NOTIFY;
       len := Z.of_nat sizeof_bleConnHandle + 2 + Z.of_nat (length payload) |}
  ++ Repr.object_repr order sizeof_bleConnHandle conn_handle
  ++ Repr.object_repr order 2 (Z.of_nat (length payload))
  ++ payload.

(** The capacity check as the code evaluates it: [data_len] and
    [payload_len] are [uint16_t]. *)
Definition check_rejects (gc : bleGattCharacteristicsValue_t) : Prop :=
  512 < sizeof_event_header_t
        + to_uint16 (Z.of_nat sizeof_bleConnHandle + 2
                     + to_uint16 (blob_size (blobValue gc))).

(** What a call can do: nothing, one whole frame, or undefined
    behaviour. *)
Inductive notify_result (h : Z) (gc : bleGattCharacteristicsValue_t)
    (w : world) : outcome world -> Prop :=
| notify_nothing : notify_result h gc w (Done w)
| notify_frame_sent region :
    0 <= g_pipe_fd w ->
    blob_data (blobValue gc) = Some region ->
    to_uint16 (blob_size (blobValue gc)) <= Z.of_nat (length region) ->
    3 + Z.of_nat sizeof_bleConnHandle + 2 + to_uint16 (blob_size (blobValue gc)) <= 512 ->
    notify_result h gc w
      (Done (emit w (g_pipe_fd w)
         (notify_frame h
            (take (Z.to_nat (to_uint16 (blob_size (blobValue gc)))) region))))
| notify_undefined u :
    0 <= g_pipe_fd w ->
    blob_data (blobValue gc) <> None ->
    notify_result h gc w (Undefined u).

Definition adapter_set_pipe (fd : Z) (w : world) : world :=
  {| g_pipe_fd := fd; pipe_writes := pipe_writes w; memory := memory w |}.

(** [callbacks] is a pointer: null is [None], [Some l] an address. *)
Definition adapter_get_callbacks (callbacks : option positive) (w : world)
  : outcome world :=
  match callbacks with
  | None => Done w
  | Some l =>
    match memory w !! l with
    | None => Undefined InvalidPointer
    | Some table =>
      Done {| g_pipe_fd := g_pipe_fd w;
              pipe_writes := pipe_writes w;
              memory :=
                <[l := <["notify_characteristics_cb" := fn_on_notify_cb]> table]>
                  (memory w) |}
    end
  end.

(** *** The consumer's side

    The decoder that mirrors the wire-format table: one byte of kind,
    two of length, the handle, two of data length, then the data. It
    returns the event read and the rest of the stream. *)

Record wire_event : Type :=
  { ev_kind : Z;
    ev_length : Z;
    ev_handle : list Z;
    ev_data_length : Z;
    ev_data : list Z }.

Definition read_bytes (n : nat) (s : list Z) : option (list Z * list Z) :=
  if decide (n ≤ length s)%nat then Some (take n s, drop n s) else None.

Definition wire_decode (s : list Z) : option (wire_event * list Z) :=
  '(kind, s) ← read_bytes 1 s;
  '(length_field, s) ← read_bytes 2 s;
  '(handle, s) ← read_bytes sizeof_bleConnHandle s;
  '(data_length, s) ← read_bytes 2 s;
  '(data, s) ← read_bytes (Z.to_nat (Repr.object_value order data_length)) s;
  Some ({| ev_kind := Repr.object_value order kind;
           ev_length := Repr.object_value order length_field;
           ev_handle := handle;
           ev_data_length := Repr.object_value order data_length;
           ev_data := data |}, s).

(** What the consumer reads back from the frame of [conn_handle] and
    [payload]. *)
Definition decoded (conn_handle : Z) (payload : list Z) : wire_event :=
  {| ev_kind := EVENT_NOTIFY;
     ev_length := Z.of_nat sizeof_bleConnHandle + 2 + Z.of_nat (length payload);
     ev_handle := Repr.object_repr order sizeof_bleConnHandle conn_handle;
     ev_data_length := Z.of_nat (length payload);
     ev_data := payload |}.

(** *** Sequences of calls into the adapter *)

Inductive call : Type :=
| call_set_pipe (fd : Z)
| call_on_notify (conn_handle : Z) (gc : bleGattCharacteristicsValue_t)
| call_get_callbacks (callbacks : option positive).

Definition step (c : call) (w : world) : outcome world :=
  match c with
  | call_set_pipe fd => Done (adapter_set_pipe fd w)
  | call_on_notify h gc => on_notify_cb h gc w
  | call_get_callbacks p => adapter_get_callbacks p w
  end.

Fixpoint run (cs : list call) (w : world) : outcome world :=
  match cs with
  | [] => Done w
  | c :: rest => w' ← step c w; run rest w'
  end.

End Adapter.

(** The buffer while it is filled from the front: the bytes written so
    far, then cells that are still indeterminate. *)
Definition filled (written : list Z) (free : nat) : buffer :=
  (Some <$> written) ++ replicate free None.

(** A characteristic value whose blob is the given bytes. *)
Definition notification (payload : list Z) : bleGattCharacteristicsValue_t :=
  {| blobValue := {| blob_size := Z.of_nat (length payload);
                     blob_data := Some payload |} |}.

(** ** Sequences of notifications and what they leave on the pipe *)


Section Sequences.

Context {P : platform}.

(** A [write] call that carries one notify frame: a valid descriptor,
    at least header, handle and data length, at most the 512 bytes of
    the buffer, and the notify tag in front. *)
Definition frame_ok (c : write_call) : Prop :=
  0 <= w_fd c
  /\ 3 + Z.of_nat sizeof_bleConnHandle + 2 <= Z.of_nat (length (w_bytes c)) <= 512
  /\ head (w_bytes c) = Some EVENT_NOTIFY.

(** The number of notifications among the calls. *)
Fixpoint notify_count (cs : list call) : nat :=
  match cs with
  | [] => 0%nat
  | call_on_notify _ _ :: rest => S (notify_count rest)
  | _ :: rest => notify_count rest
  end.

(** A call that does not open the pipe: anything but [adapter_set_pipe]
    with a descriptor that is not negative. *)
Definition keeps_pipe_closed (c : call) : Prop :=
  match c with
  | call_set_pipe fd => fd < 0
  | _ => True
  end.

(** The notifications of the given handles and payloads, in order. *)
Definition notify_calls (ns : list (Z * list Z)) : list call :=
  map (fun n => call_on_notify n.1 (notification n.2)) ns.

(** The consumer reading [n] frames one after the other. *)
Fixpoint wire_decode_many (n : nat) (s : list Z)
  : option (list wire_event * list Z) :=
  match n with
  | O => Some ([], s)
  | S k =>
    '(ev, s) ← wire_decode s;
    '(evs, s) ← wire_decode_many k s;
    Some (ev :: evs, s)
  end.

End Sequences.

(** * Properties *)

(** ** Object representations *)

Module ReprFacts.
Import Repr.

Lemma length_le_bytes n v : length (le_bytes n v) = n.
Proof. revert v; induction n as [|n IH]; intros v; simpl; [done|]. by rewrite IH. Qed.

Lemma le_value_le_bytes n v : le_value (le_bytes n v) = v mod 256 ^ Z.of_nat n.
Proof.
  revert v; induction n as [|n IH]; intros v.
  - simpl. by rewrite Z.mod_1_r.
  - cbn [le_bytes le_value]. rewrite IH, Nat2Z.inj_succ, Z.pow_succ_r by lia.
    rewrite Z.rem_mul_r by lia. lia.
Qed.

Lemma length_object_repr o n v : length (object_repr o n v) = n.
Proof. destruct o; simpl; rewrite ?length_rev; apply length_le_bytes. Qed.

Lemma object_value_repr o n v :
  object_value o (object_repr o n v) = v mod 256 ^ Z.of_nat n.
Proof. destruct o; simpl; rewrite ?rev_involutive; apply le_value_le_bytes. Qed.

Lemma object_value_repr_small o n v :
  0 <= v < 256 ^ Z.of_nat n -> object_value o (object_repr o n v) = v.
Proof. intros Hv. rewrite object_value_repr. by apply Z.mod_small. Qed.

Lemma object_value_repr_8 o v :
  0 <= v <= 255 -> object_value o (object_repr o 1 v) = v.
Proof. intros Hv. apply object_value_repr_small. change (256 ^ Z.of_nat 1) with 256. lia. Qed.

Lemma object_value_repr_16 o v :
  0 <= v <= 65535 -> object_value o (object_repr o 2 v) = v.
Proof. intros Hv. apply object_value_repr_small. change (256 ^ Z.of_nat 2) with 65536. lia. Qed.

Lemma object_repr_1 o v : object_repr o 1 v = [v mod 256].
Proof. by destruct o. Qed.

End ReprFacts.

(** ** Copies into the buffer *)

Lemma memcpy_overflow dst off src n :
  Z.of_nat (length dst) < off + n -> memcpy dst off src n = Undefined BufferOverflow.
Proof.
  intros Hlt. unfold memcpy.
  destruct (Z.ltb_spec (Z.of_nat (length dst)) (off + n)); [done | lia].
Qed.

Lemma length_filled written free :
  length (filled written free) = (length written + free)%nat.
Proof. unfold filled. by rewrite length_app, length_fmap, length_replicate. Qed.

Lemma memcpy_filled written free src n :
  (n ≤ free)%nat -> (n ≤ length src)%nat ->
  memcpy (filled written free) (Z.of_nat (length written)) src (Z.of_nat n)
  = Done (filled (written ++ take n src) (free - n)).
Proof.
  intros Hfree Hsrc. unfold memcpy. rewrite length_filled.
  destruct (Z.ltb_spec (Z.of_nat (length written + free))
                       (Z.of_nat (length written) + Z.of_nat n)); [lia|].
  destruct (Z.ltb_spec (Z.of_nat (length src)) (Z.of_nat n)); [lia|].
  f_equal. unfold filled.
  rewrite <- Nat2Z.inj_add, !Nat2Z.id.
  rewrite take_app_length' by (by rewrite length_fmap).
  rewrite drop_app_ge by (rewrite length_fmap; lia).
  rewrite length_fmap, drop_replicate, fmap_app, <- app_assoc.
  do 3 f_equal. lia.
Qed.

Lemma mapM_id_Some (bytes : list Z) : mapM id (Some <$> bytes) = Some bytes.
Proof. by apply mapM_fmap_Some. Qed.

Lemma write_filled fd written free w :
  write fd (filled written free) (Z.of_nat (length written)) w
  = Done (emit w fd written).
Proof.
  unfold write. rewrite length_filled.
  destruct (Z.ltb_spec (Z.of_nat (length written + free))
                       (Z.of_nat (length written))); [lia|].
  unfold filled. rewrite Nat2Z.id.
  rewrite take_app_length' by (by rewrite length_fmap).
  by rewrite mapM_id_Some.
Qed.


Lemma memcpy_next written free off src n :
  off = Z.of_nat (length written) ->
  0 <= n <= Z.of_nat free -> n <= Z.of_nat (length src) ->
  memcpy (filled written free) off src n
  = Done (filled (written ++ take (Z.to_nat n) src) (free - Z.to_nat n)).
Proof.
  intros -> Hn Hsrc. rewrite <- (Z2Nat.id n) at 1 by lia.
  apply memcpy_filled; lia.
Qed.

Lemma memcpy_past_end written free off src n :
  off = Z.of_nat (length written) -> Z.of_nat free < n ->
  memcpy (filled written free) off src n = Undefined BufferOverflow.
Proof.
  intros -> Hn. apply memcpy_overflow. rewrite length_filled. lia.
Qed.

Lemma memcpy_short_source written free off src n :
  off = Z.of_nat (length written) ->
  n <= Z.of_nat free -> Z.of_nat (length src) < n ->
  memcpy (filled written free) off src n = Undefined ReadOutOfBounds.
Proof.
  intros -> Hn Hsrc. unfold memcpy. rewrite length_filled.
  destruct (Z.ltb_spec (Z.of_nat (length written + free))
                       (Z.of_nat (length written) + n)); [lia|].
  destruct (Z.ltb_spec (Z.of_nat (length src)) n); [done | lia].
Qed.

(** ** The notify callback *)

Section AdapterFacts.

Context {P : platform}.

Local Abbreviation hsize := sizeof_bleConnHandle.

Lemma length_header_repr h : length (header_repr h) = 3%nat.
Proof.
  unfold header_repr.
  by rewrite length_app, !ReprFacts.length_object_repr.
Qed.

Lemma length_notify_frame h payload :
  length (notify_frame h payload) = (3 + hsize + 2 + length payload)%nat.
Proof.
  unfold notify_frame.
  rewrite !length_app, length_header_repr, !ReprFacts.length_object_repr. lia.
Qed.

(** No descriptor: nothing happens. *)
Lemma on_notify_cb_no_pipe h gc w :
  g_pipe_fd w < 0 -> on_notify_cb h gc w = Done w.
Proof.
  intros Hfd. unfold on_notify_cb.
  destruct (Z.ltb_spec (g_pipe_fd w) 0); [done | lia].
Qed.

(** Null data pointer: nothing happens. *)
Lemma on_notify_cb_null_data h gc w :
  blob_data (blobValue gc) = None -> on_notify_cb h gc w = Done w.
Proof.
  intros Hd. unfold on_notify_cb. rewrite Hd.
  by destruct (g_pipe_fd w <? 0).
Qed.

Lemma on_notify_cb_rejected h gc w :
  check_rejects gc -> on_notify_cb h gc w = Done w.
Proof.
  unfold check_rejects. change sizeof_event_header_t with 3.
  intros Hc. unfold on_notify_cb.
  destruct (g_pipe_fd w <? 0); [done|].
  destruct (blob_data (blobValue gc)); [|done].
  cbv zeta. unfold uninitialised. rewrite length_replicate, Z.gtb_ltb.
  change sizeof_event_header_t with 3.
  destruct (Z.ltb_spec (Z.of_nat 512)
  (3 + to_uint16 (Z.of_nat hsize + 2 + to_uint16 (blob_size (blobValue gc)))));
  [done | lia].
Qed.

(** Past the guards and within the buffer, exactly one frame is written. *)
Lemma on_notify_cb_sends h gc w region :
  0 <= g_pipe_fd w ->
  blob_data (blobValue gc) = Some region ->
  to_uint16 (blob_size (blobValue gc)) <= Z.of_nat (length region) ->
  3 + Z.of_nat hsize + 2 + to_uint16 (blob_size (blobValue gc)) <= 512 ->
  on_notify_cb h gc w
  = Done (emit w (g_pipe_fd w)
            (notify_frame h
               (take (Z.to_nat (to_uint16 (blob_size (blobValue gc)))) region))).
Proof.
  intros Hfd Hd Hsrc Hfit. unfold on_notify_cb. rewrite Hd.
  destruct (Z.ltb_spec (g_pipe_fd w) 0); [lia|].
  cbv zeta.
  set (data_len := to_uint16 (blob_size (blobValue gc))) in *.
  assert (0 <= data_len) as Hdl0 by (apply Z.mod_pos_bound; lia).
  assert (to_uint16 (Z.of_nat hsize + 2 + data_len) = Z.of_nat hsize + 2 + data_len)
    as -> by (apply Z.mod_small; lia).
  unfold uninitialised. rewrite length_replicate, Z.gtb_ltb.
  change sizeof_event_header_t with 3.
  destruct (Z.ltb_spec (Z.of_nat 512) (3 + (Z.of_nat hsize + 2 + data_len))); [lia|].
  change (replicate 512 None) with (filled [] 512).
  rewrite (memcpy_next [] 512) by (rewrite ?length_header_repr; simpl; lia).
  cbn [mbind outcome_bind].
  rewrite (memcpy_next _ _ (0 + 3))
    by (rewrite ?length_app, ?length_take, ?length_header_repr,
          ?ReprFacts.length_object_repr; simpl; lia).
  cbn [mbind outcome_bind].
  rewrite (memcpy_next _ _ (0 + 3 + Z.of_nat hsize))
    by (rewrite ?length_app, ?length_take, ?length_header_repr,
          ?ReprFacts.length_object_repr; simpl; lia).
  cbn [mbind outcome_bind].
  rewrite (memcpy_next _ _ (0 + 3 + Z.of_nat hsize + 2))
    by (rewrite ?length_app, ?length_take, ?length_header_repr,
          ?ReprFacts.length_object_repr; simpl; lia).
  cbn [mbind outcome_bind].
  rewrite !take_ge
    by (rewrite ?length_header_repr, ?ReprFacts.length_object_repr; lia).
  match goal with |- write _ (filled ?bytes _) ?count _ = _ =>
    replace count with (Z.of_nat (length bytes))
  end.
  - rewrite write_filled. unfold notify_frame.
    rewrite length_take, Nat.min_l by lia.
    rewrite Z2Nat.id by lia. by rewrite <- !app_assoc.
  - rewrite !length_app, length_header_repr, !ReprFacts.length_object_repr,
      length_take. simpl. lia.
Qed.

(** Past the check but not within the buffer: a copy runs past the end
    of [buf]. *)
Lemma on_notify_cb_overflows h gc w region :
  0 <= g_pipe_fd w ->
  blob_data (blobValue gc) = Some region ->
  ~ check_rejects gc ->
  512 < 3 + Z.of_nat hsize + 2 + to_uint16 (blob_size (blobValue gc)) ->
  on_notify_cb h gc w = Undefined BufferOverflow.
Proof.
  unfold check_rejects. change sizeof_event_header_t with 3.
  intros Hfd Hd Hpass Hbig. unfold on_notify_cb. rewrite Hd.
  destruct (Z.ltb_spec (g_pipe_fd w) 0); [lia|].
  cbv zeta.
  set (data_len := to_uint16 (blob_size (blobValue gc))) in *.
  set (payload_len := to_uint16 (Z.of_nat hsize + 2 + data_len)) in *.
  unfold uninitialised. rewrite length_replicate, Z.gtb_ltb.
  change sizeof_event_header_t with 3.
  destruct (Z.ltb_spec (Z.of_nat 512) (3 + payload_len)); [lia|].
  change (replicate 512 None) with (filled [] 512).
  rewrite (memcpy_next [] 512) by (rewrite ?length_header_repr; simpl; lia).
  cbn [mbind outcome_bind].
  rewrite take_ge by (rewrite length_header_repr; lia).
  destruct (Z_lt_le_dec 509 (Z.of_nat hsize)) as [Hh|Hh].
  { rewrite memcpy_past_end; [done | | lia].
    rewrite length_app, length_header_repr. simpl. lia. }
  rewrite (memcpy_next _ _ (0 + 3))
    by (rewrite ?length_app, ?length_header_repr,
          ?ReprFacts.length_object_repr; simpl; lia).
  cbn [mbind outcome_bind].
  rewrite take_ge by (rewrite ReprFacts.length_object_repr; lia).
  destruct (Z_lt_le_dec 507 (Z.of_nat hsize)) as [Hh2|Hh2].
  { rewrite memcpy_past_end; [done | | lia].
    rewrite !length_app, length_header_repr, ReprFacts.length_object_repr.
    simpl. lia. }
  rewrite (memcpy_next _ _ (0 + 3 + Z.of_nat hsize))
    by (rewrite ?length_app, ?length_header_repr,
          ?ReprFacts.length_object_repr; simpl; lia).
  cbn [mbind outcome_bind].
  rewrite take_ge by (rewrite ReprFacts.length_object_repr; lia).
  rewrite memcpy_past_end; [done | | lia].
  rewrite !length_app, length_header_repr, !ReprFacts.length_object_repr.
  simpl. lia.
Qed.

(** Within the buffer, but fewer bytes at the pointer than the size
    says: the last copy reads past the end of the source. *)
Lemma on_notify_cb_short_source h gc w region :
  0 <= g_pipe_fd w ->
  blob_data (blobValue gc) = Some region ->
  3 + Z.of_nat hsize + 2 + to_uint16 (blob_size (blobValue gc)) <= 512 ->
  Z.of_nat (length region) < to_uint16 (blob_size (blobValue gc)) ->
  on_notify_cb h gc w = Undefined ReadOutOfBounds.
Proof.
  intros Hfd Hd Hfit Hshort. unfold on_notify_cb. rewrite Hd.
  destruct (Z.ltb_spec (g_pipe_fd w) 0); [lia|].
  cbv zeta.
  set (data_len := to_uint16 (blob_size (blobValue gc))) in *.
  assert (to_uint16 (Z.of_nat hsize + 2 + data_len) = Z.of_nat hsize + 2 + data_len)
    as -> by (apply Z.mod_small; lia).
  unfold uninitialised. rewrite length_replicate, Z.gtb_ltb.
  change sizeof_event_header_t with 3.
  destruct (Z.ltb_spec (Z.of_nat 512) (3 + (Z.of_nat hsize + 2 + data_len))); [lia|].
  change (replicate 512 None) with (filled [] 512).
  rewrite (memcpy_next [] 512) by (rewrite ?length_header_repr; simpl; lia).
  cbn [mbind outcome_bind].
  rewrite (memcpy_next _ _ (0 + 3))
    by (rewrite ?length_app, ?length_take, ?length_header_repr,
          ?ReprFacts.length_object_repr; simpl; lia).
  cbn [mbind outcome_bind].
  rewrite (memcpy_next _ _ (0 + 3 + Z.of_nat hsize))
    by (rewrite ?length_app, ?length_take, ?length_header_repr,
          ?ReprFacts.length_object_repr; simpl; lia).
  cbn [mbind outcome_bind].
  rewrite memcpy_short_source; [done | | | lia].
  - rewrite !length_app, !length_take, length_header_repr,
      !ReprFacts.length_object_repr. simpl. lia.
  - simpl. lia.
Qed.

Lemma on_notify_cb_result h gc w : notify_result h gc w (on_notify_cb h gc w).
Proof.
  destruct (Z_lt_le_dec (g_pipe_fd w) 0) as [Hfd|Hfd].
  { rewrite on_notify_cb_no_pipe by done. constructor. }
  destruct (blob_data (blobValue gc)) as [region|] eqn:Hd.
  2: { rewrite on_notify_cb_null_data by done. constructor. }
  destruct (Z_lt_le_dec 512
    (sizeof_event_header_t
     + to_uint16 (Z.of_nat hsize + 2 + to_uint16 (blob_size (blobValue gc)))))
    as [Hrej|Hpass].
  { rewrite on_notify_cb_rejected by done. constructor. }
  destruct (Z_lt_le_dec 512
    (3 + Z.of_nat hsize + 2 + to_uint16 (blob_size (blobValue gc))))
    as [Hbig|Hfit].
  { rewrite (on_notify_cb_overflows h gc w region); try done.
    - apply notify_undefined; [done | congruence].
    - unfold check_rejects. lia. }
  destruct (Z_lt_le_dec (Z.of_nat (length region))
    (to_uint16 (blob_size (blobValue gc)))) as [Hshort|Hlong].
  { rewrite (on_notify_cb_short_source h gc w region) by done.
    apply notify_undefined; [done | congruence]. }
  rewrite (on_notify_cb_sends h gc w region) by done.
  by apply notify_frame_sent.
Qed.

End AdapterFacts.

(** ** Decoding *)

Lemma read_bytes_app n (field rest : list Z) :
  length field = n -> read_bytes n (field ++ rest) = Some (field, rest).
Proof.
  intros <-. unfold read_bytes.
  destruct (decide (length field ≤ length (field ++ rest))%nat) as [_|Hn].
  - by rewrite take_app_length, drop_app_length.
  - rewrite length_app in Hn. lia.
Qed.

Section Decoding.

Context {P : platform}.

Lemma wire_decode_notify_frame h payload rest :
  Z.of_nat sizeof_bleConnHandle + 2 + Z.of_nat (length payload) <= 65535 ->
  wire_decode (notify_frame h payload ++ rest) = Some (decoded h payload, rest).
Proof.
  intros Hfit. unfold wire_decode, notify_frame, header_repr.
  cbn [type len]. rewrite <- !app_assoc.
  rewrite read_bytes_app by apply ReprFacts.length_object_repr.
  cbn [mbind option_bind].
  rewrite read_bytes_app by apply ReprFacts.length_object_repr.
  cbn [mbind option_bind].
  rewrite read_bytes_app by apply ReprFacts.length_object_repr.
  cbn [mbind option_bind].
  rewrite read_bytes_app by apply ReprFacts.length_object_repr.
  cbn [mbind option_bind].
  rewrite ReprFacts.object_value_repr_8 by (unfold EVENT_NOTIFY; lia).
  rewrite !ReprFacts.object_value_repr_16 by lia.
  rewrite read_bytes_app by lia.
  cbn [mbind option_bind]. done.
Qed.

End Decoding.

(** ** Worlds *)

Lemma emit_changes w fd bytes : emit w fd bytes <> w.
Proof.
  intros Heq. apply (f_equal (fun x => length (pipe_writes x))) in Heq.
  simpl in Heq. rewrite length_app in Heq. simpl in Heq. lia.
Qed.

Lemma to_uint16_small z : 0 <= z <= 65535 -> to_uint16 z = z.
Proof. intros Hz. unfold to_uint16. apply Z.mod_small. lia. Qed.

(** ** Notifications that carry exactly their payload *)

Lemma blob_size_notification payload :
  blob_size (blobValue (notification payload)) = Z.of_nat (length payload).
Proof. reflexivity. Qed.

Section Notifications.

Context {P : platform}.

Local Abbreviation hsize := sizeof_bleConnHandle.

(** A payload that fits is framed whole. *)
Lemma on_notify_cb_frames_payload h payload w :
  0 <= g_pipe_fd w ->
  3 + Z.of_nat hsize + 2 + Z.of_nat (length payload) <= 512 ->
  on_notify_cb h (notification payload) w
  = Done (emit w (g_pipe_fd w) (notify_frame h payload)).
Proof.
  intros Hfd Hfit.
  rewrite (on_notify_cb_sends h _ w payload); try done; simpl;
    rewrite ?to_uint16_small by lia; try lia.
  by rewrite Nat2Z.id, firstn_all.
Qed.

(** A payload that does not fit is dropped, as long as the 16-bit
    payload length does not wrap. *)
Lemma on_notify_cb_drops_oversize h payload w :
  512 < 3 + Z.of_nat hsize + 2 + Z.of_nat (length payload) ->
  Z.of_nat hsize + 2 + Z.of_nat (length payload) <= 65535 ->
  on_notify_cb h (notification payload) w = Done w.
Proof.
  intros Hbig Hnowrap. apply on_notify_cb_rejected.
  unfold check_rejects. simpl. change sizeof_event_header_t with 3.
  rewrite !to_uint16_small by (rewrite ?to_uint16_small by lia; lia). lia.
Qed.

(** Without a wrap of the payload length, every call returns, having
    written nothing or one whole frame. *)
Lemma on_notify_cb_returns_without_wrap h payload w :
  Z.of_nat hsize + 2 + Z.of_nat (length payload) <= 65535 ->
  on_notify_cb h (notification payload) w = Done w \/
  on_notify_cb h (notification payload) w
  = Done (emit w (g_pipe_fd w) (notify_frame h payload)).
Proof.
  intros Hnowrap.
  destruct (Z_lt_le_dec (g_pipe_fd w) 0) as [Hfd|Hfd].
  { left. by apply on_notify_cb_no_pipe. }
  destruct (Z_lt_le_dec 512 (3 + Z.of_nat hsize + 2 + Z.of_nat (length payload))).
  - left. by apply on_notify_cb_drops_oversize.
  - right. by apply on_notify_cb_frames_payload.
Qed.

(** Without a wrap, a check that passes bounds the frame. *)
Lemma check_sound_without_wrap gc :
  0 <= blob_size (blobValue gc) ->
  Z.of_nat hsize + 2 + blob_size (blobValue gc) <= 65535 ->
  ~ check_rejects gc ->
  3 + Z.of_nat hsize + 2 + blob_size (blobValue gc) <= 512.
Proof.
  unfold check_rejects. change sizeof_event_header_t with 3.
  intros Hpos Hnowrap Hpass.
  rewrite !to_uint16_small in Hpass by (rewrite ?to_uint16_small by lia; lia).
  lia.
Qed.

End Notifications.

(** * The claims *)

(** C1. For every connection handle and payload with
    3 + sizeof(handle) + 2 + len(payload) <= 512, the notify event is
    encoded: one frame goes to the pipe, the two bytes after its kind tag
    hold sizeof(handle) + 2 + len(payload), and that is exactly the number
    of bytes that follow the 3-byte header. *)
Theorem notify_length_field_exact `{P : platform} (h : Z) (payload : list Z)
    (w : world) :
  0 <= g_pipe_fd w ->
  3 + Z.of_nat sizeof_bleConnHandle + 2 + Z.of_nat (length payload) <= 512 ->
  exists frame,
    on_notify_cb h (notification payload) w = Done (emit w (g_pipe_fd w) frame)
    /\ Repr.object_value order (take 2 (drop 1 frame))
       = Z.of_nat sizeof_bleConnHandle + 2 + Z.of_nat (length payload)
    /\ Z.of_nat (length (drop 3 frame))
       = Z.of_nat sizeof_bleConnHandle + 2 + Z.of_nat (length payload).
Proof.
  intros Hfd Hfit. exists (notify_frame h payload). split; [|split].
  - by apply on_notify_cb_frames_payload.
  - unfold notify_frame, header_repr. cbn [type len].
    rewrite ReprFacts.object_repr_1. cbn [app skipn]. rewrite drop_0.
    rewrite take_app_length' by (by rewrite ReprFacts.length_object_repr).
    apply ReprFacts.object_value_repr_16. lia.
  - rewrite length_drop, length_notify_frame. lia.
Qed.

Lemma notify_length_field_exact_witness :
  0 <= g_pipe_fd (adapter_set_pipe 3 initial_world) /\
  3 + Z.of_nat (@sizeof_bleConnHandle kindle) + 2
    + Z.of_nat (length [170; 187; 204]) <= 512 /\
  exists frame,
    on_notify_cb (P := kindle) 7 (notification [170; 187; 204])
      (adapter_set_pipe 3 initial_world)
    = Done (emit (adapter_set_pipe 3 initial_world) 3 frame)
    /\ Repr.object_value LittleEndian (take 2 (drop 1 frame)) = 4 + 2 + 3
    /\ Z.of_nat (length (drop 3 frame)) = 4 + 2 + 3.
Proof.
  split; [simpl; lia|]. split; [simpl; lia|].
  apply (notify_length_field_exact (P := kindle) 7 [170; 187; 204]
           (adapter_set_pipe 3 initial_world)); simpl; lia.
Defined.

(** C2. A payload whose total frame size exceeds 512 bytes should be
    dropped with nothing written. The code decides on the 16-bit
    [payload_len]: with 4-byte handles and a blob of 65530 bytes the sum
    4 + 2 + 65530 wraps to 0, the check passes although the frame would
    take 65539 bytes, and the copies run past the end of the 512-byte
    buffer instead of the event being dropped. *)
Theorem oversize_payload_not_dropped :
  let payload := replicate (Z.to_nat 65530) 0 in
  let w := adapter_set_pipe 3 initial_world in
  blob_wf (blobValue (notification payload))
  /\ 512 < sizeof_event_header_t
           + (Z.of_nat (@sizeof_bleConnHandle kindle) + 2
              + Z.of_nat (length payload))
  /\ on_notify_cb (P := kindle) 7 (notification payload) w
     = Undefined BufferOverflow
  /\ on_notify_cb (P := kindle) 7 (notification payload) w <> Done w.
Proof.
  intros payload w.
  assert (Z.of_nat (length payload) = 65530) as Hlen
    by (unfold payload; rewrite length_replicate; lia).
  assert (on_notify_cb (P := kindle) 7 (notification payload) w
          = Undefined BufferOverflow) as Hrun.
  { apply (on_notify_cb_overflows (P := kindle) 7 _ w payload).
    - unfold w. cbn [adapter_set_pipe g_pipe_fd]. lia.
    - reflexivity.
    - unfold check_rejects. rewrite blob_size_notification, Hlen.
      vm_compute. intros Hlt. discriminate Hlt.
    - rewrite blob_size_notification, Hlen. vm_compute. reflexivity. }
  split; [|split; [|split]].
  - unfold blob_wf. rewrite blob_size_notification, Hlen.
    cbn [notification blobValue blob_data]. lia.
  - rewrite Hlen. vm_compute. reflexivity.
  - exact Hrun.
  - rewrite Hrun. discriminate.
Qed.

(** C3. On a little-endian host with 4-byte handles, with the pipe set
    to a valid descriptor, the notification of handle 0x00000007 with
    data AA BB CC writes exactly the 12 bytes
    01 09 00 07 00 00 00 03 00 AA BB CC. *)
Theorem scenario_frame_bytes (fd : Z) (w : world) :
  0 <= fd ->
  on_notify_cb (P := kindle) 7 (notification [170; 187; 204])
    (adapter_set_pipe fd w)
  = Done (emit (adapter_set_pipe fd w) fd
            [1; 9; 0; 7; 0; 0; 0; 3; 0; 170; 187; 204]).
Proof.
  intros Hfd.
  by rewrite (on_notify_cb_frames_payload (P := kindle)) by (simpl; lia).
Qed.

Lemma scenario_frame_bytes_witness :
  0 <= 3 /\
  on_notify_cb (P := kindle) 7 (notification [170; 187; 204])
    (adapter_set_pipe 3 initial_world)
  = Done (emit (adapter_set_pipe 3 initial_world) 3
            [1; 9; 0; 7; 0; 0; 0; 3; 0; 170; 187; 204]).
Proof.
  split; [lia|]. apply (scenario_frame_bytes 3 initial_world). lia.
Defined.

(** C4. Round trip: whenever a notification is encoded and written, the
    decoder of the wire-format table reads back from the frame (followed
    by any further bytes of the stream) the kind tag, the length, exactly
    the bytes of the connection handle, the data length and exactly the
    payload bytes, and stops at the end of the frame. *)
Theorem notify_frame_roundtrip `{P : platform} (h : Z) (payload : list Z)
    (w : world) (frame rest : list Z) :
  Z.of_nat (length payload) <= 65535 ->
  on_notify_cb h (notification payload) w = Done (emit w (g_pipe_fd w) frame) ->
  exists ev,
    wire_decode (frame ++ rest) = Some (ev, rest)
    /\ ev_kind ev = EVENT_NOTIFY
    /\ ev_length ev
       = Z.of_nat sizeof_bleConnHandle + 2 + Z.of_nat (length payload)
    /\ ev_handle ev = Repr.object_repr order sizeof_bleConnHandle h
    /\ ev_data_length ev = Z.of_nat (length payload)
    /\ ev_data ev = payload.
Proof.
  intros Hsize Hrun.
  pose proof (on_notify_cb_result h (notification payload) w) as Hres.
  rewrite Hrun in Hres.
  inversion Hres as [Hw | region Hfd Hd Hsrc Hfit Hw | ].
  { symmetry in Hw. by apply emit_changes in Hw. }
  simpl in Hd, Hsrc, Hfit. injection Hd as <-.
  rewrite to_uint16_small in * by lia.
  rewrite Nat2Z.id, firstn_all in Hw.
  apply app_inj_tail in Hw as [_ Hw]. injection Hw as <-.
  exists (decoded h payload). split; [|done].
  apply wire_decode_notify_frame. lia.
Qed.

Lemma notify_frame_roundtrip_witness :
  Z.of_nat (length [170; 187; 204]) <= 65535 /\
  on_notify_cb (P := kindle) 7 (notification [170; 187; 204])
    (adapter_set_pipe 3 initial_world)
  = Done (emit (adapter_set_pipe 3 initial_world) 3
            [1; 9; 0; 7; 0; 0; 0; 3; 0; 170; 187; 204]) /\
  exists ev,
    wire_decode (P := kindle)
      ([1; 9; 0; 7; 0; 0; 0; 3; 0; 170; 187; 204] ++ [1; 6; 0]) = Some (ev, [1; 6; 0])
    /\ ev_kind ev = 1
    /\ ev_length ev = 9
    /\ ev_handle ev = [7; 0; 0; 0]
    /\ ev_data_length ev = 3
    /\ ev_data ev = [170; 187; 204].
Proof.
  split; [simpl; lia|]. split; [reflexivity|].
  apply (notify_frame_roundtrip (P := kindle) 7 [170; 187; 204]
           (adapter_set_pipe 3 initial_world)
           [1; 9; 0; 7; 0; 0; 0; 3; 0; 170; 187; 204] [1; 6; 0]);
    [simpl; lia | reflexivity].
Defined.

(** C5, as stated, fails: a payload of length zero whose data pointer is
    not null is not a no-op. On the little-endian host with 4-byte
    handles it is written as the 9-byte frame 01 06 00 07 00 00 00 00 00. *)
Lemma empty_payload_is_written :
  ~ (forall (P : platform) (h : Z) (gc : bleGattCharacteristicsValue_t)
            (w : world),
       g_pipe_fd w < 0
       \/ blob_data (blobValue gc) = None
       \/ blob_size (blobValue gc) = 0 ->
       on_notify_cb h gc w = Done w).
Proof.
  intros Hclaim.
  specialize (Hclaim kindle 7 (notification []) (adapter_set_pipe 3 initial_world)).
  assert (on_notify_cb (P := kindle) 7 (notification [])
            (adapter_set_pipe 3 initial_world)
          = Done (emit (adapter_set_pipe 3 initial_world) 3
                    [1; 6; 0; 7; 0; 0; 0; 0; 0])) as Hrun by reflexivity.
  rewrite Hrun in Hclaim.
  assert (Done (emit (adapter_set_pipe 3 initial_world) 3
                  [1; 6; 0; 7; 0; 0; 0; 0; 0])
          = Done (adapter_set_pipe 3 initial_world)) as Heq
    by (apply Hclaim; right; right; reflexivity).
  injection Heq as Heq. discriminate Heq.
Qed.

(** C5, amended. Whenever the pipe descriptor is negative (unset or
    disabled) or the data pointer of the payload is null, the callback
    returns at once, without error, and nothing is written. *)
Theorem notify_noop_without_pipe_or_data `{P : platform} (h : Z)
    (gc : bleGattCharacteristicsValue_t) (w : world) :
  g_pipe_fd w < 0 \/ blob_data (blobValue gc) = None ->
  on_notify_cb h gc w = Done w.
Proof.
  intros [Hfd | Hnull].
  - by apply on_notify_cb_no_pipe.
  - by apply on_notify_cb_null_data.
Qed.

Lemma notify_noop_without_pipe_or_data_witness :
  (g_pipe_fd initial_world < 0
   \/ blob_data (blobValue (notification [170; 187; 204])) = None)
  /\ on_notify_cb (P := kindle) 7 (notification [170; 187; 204]) initial_world
     = Done initial_world.
Proof.
  split; [left; simpl; lia|].
  apply (notify_noop_without_pipe_or_data (P := kindle) 7
           (notification [170; 187; 204]) initial_world).
  left. simpl. lia.
Defined.

(** C6. The capacity check should keep every copy inside the 512-byte
    buffer. It does not: with 4-byte handles and blobValue.size = 65535
    the 16-bit [payload_len] is 4 + 2 + 65535 mod 65536 = 5, the check
    3 + 5 > 512 fails to reject, yet 3 + 4 + 2 + 65535 > 512 and the last
    copy runs past the end of the buffer. *)
Theorem capacity_check_wraps :
  let gc := notification (replicate (Z.to_nat 65535) 0) in
  0 <= blob_size (blobValue gc) <= 65535
  /\ ~ check_rejects (P := kindle) gc
  /\ ~ (3 + Z.of_nat (@sizeof_bleConnHandle kindle) + 2
        + blob_size (blobValue gc) <= 512)
  /\ on_notify_cb (P := kindle) 7 gc (adapter_set_pipe 3 initial_world)
     = Undefined BufferOverflow.
Proof.
  intros gc.
  assert (blob_size (blobValue gc) = 65535) as Hsize.
  { unfold gc. rewrite blob_size_notification, length_replicate. lia. }
  assert (~ check_rejects (P := kindle) gc) as Hpass.
  { unfold check_rejects. rewrite Hsize. vm_compute.
    intros Hlt. discriminate Hlt. }
  split; [lia|]. split; [exact Hpass|]. split.
  - rewrite Hsize. vm_compute. intros Hle. by apply Hle.
  - apply (on_notify_cb_overflows (P := kindle) 7 gc _
             (replicate (Z.to_nat 65535) 0)).
    + cbn [adapter_set_pipe g_pipe_fd]. lia.
    + reflexivity.
    + exact Hpass.
    + rewrite Hsize. vm_compute. reflexivity.
Qed.

(** C7. The header always serialises to exactly 3 bytes, the kind tag
    followed at once by the two bytes of the length, with no padding;
    the tags are NOTIFY = 1, CONNECT = 2, DISCONNECT = 3; and every frame
    that [on_notify_cb] writes starts with the byte 1. *)
Theorem header_is_three_bytes `{P : platform} :
  sizeof_event_header_t = 3
  /\ (forall hdr : event_header_t,
        Z.of_nat (length (header_repr hdr)) = sizeof_event_header_t
        /\ take 1 (header_repr hdr) = [type hdr mod 256]
        /\ Repr.object_value order (drop 1 (header_repr hdr))
           = len hdr mod 65536)
  /\ EVENT_NOTIFY = 1 /\ EVENT_CONNECT = 2 /\ EVENT_DISCONNECT = 3
  /\ (forall (h : Z) (gc : bleGattCharacteristicsValue_t) (w w' : world),
        on_notify_cb h gc w = Done w' ->
        w' = w
        \/ exists payload_len body,
             w' = emit w (g_pipe_fd w)
                    (1 :: Repr.object_repr order 2 payload_len ++ body)
             /\ Z.of_nat (length body) = payload_len).
Proof.
  split; [reflexivity|]. split; [|split; [reflexivity|]].
  - intros hdr. split; [|split].
    + by rewrite length_header_repr.
    + unfold header_repr. by rewrite ReprFacts.object_repr_1.
    + unfold header_repr. rewrite ReprFacts.object_repr_1. cbn [app skipn].
      rewrite drop_0. apply ReprFacts.object_value_repr.
  - split; [reflexivity|]. split; [reflexivity|].
    intros h gc w w' Hrun.
    pose proof (on_notify_cb_result h gc w) as Hres. rewrite Hrun in Hres.
    remember (Done w') as r eqn:Hr.
    destruct Hres as [ | region Hfd Hd Hsrc Hfit | u Hfd Hd ].
    + left. by injection Hr as <-.
    + right. injection Hr as <-.
      assert (0 <= to_uint16 (blob_size (blobValue gc))) as Hpos
        by (apply Z.mod_pos_bound; lia).
      eexists _, _. split.
      * unfold notify_frame, header_repr. cbn [type len].
        rewrite ReprFacts.object_repr_1. reflexivity.
      * rewrite !length_app, !ReprFacts.length_object_repr, length_take. lia.
    + discriminate Hr.
Qed.

(** C8. The callback should return normally on every input, having
    written nothing or one whole frame. It does so whenever the 16-bit
    payload length does not wrap ([on_notify_cb_returns_without_wrap]),
    but not on every input: with 4-byte handles, a valid descriptor and
    a blob of 65535 bytes the call does not return normally, it copies
    past the end of its 512-byte stack buffer. *)
Theorem notify_overruns_its_buffer :
  let gc := notification (replicate (Z.to_nat 65535) 7) in
  let w := adapter_set_pipe 3 initial_world in
  blob_wf (blobValue gc)
  /\ ~ (exists w', on_notify_cb (P := kindle) 7 gc w = Done w').
Proof.
  intros gc w.
  assert (blob_size (blobValue gc) = 65535) as Hsize.
  { unfold gc. rewrite blob_size_notification, length_replicate. lia. }
  split.
  - unfold blob_wf. rewrite Hsize. split; [lia|].
    unfold gc. cbn [notification blobValue blob_data].
    rewrite length_replicate. lia.
  - intros [w' Hrun].
    rewrite (on_notify_cb_overflows (P := kindle) 7 gc w
               (replicate (Z.to_nat 65535) 7)) in Hrun.
    + discriminate Hrun.
    + unfold w. cbn [adapter_set_pipe g_pipe_fd]. lia.
    + reflexivity.
    + unfold check_rejects. rewrite Hsize. vm_compute.
      intros Hlt. discriminate Hlt.
    + rewrite Hsize. vm_compute. reflexivity.
Qed.

(** C9. For a pointer to a callbacks structure, [adapter_get_callbacks]
    stores the notify handler in the slot notify_characteristics_cb and
    changes nothing else: every other slot of the structure, every other
    object in memory, the pipe descriptor and the writes stay as they
    were. For a null pointer the call changes nothing at all. *)
Theorem adapter_get_callbacks_frame (l : positive)
    (table : gmap string fn_ptr) (w : world) :
  memory w !! l = Some table ->
  (exists w' table',
     adapter_get_callbacks (Some l) w = Done w'
     /\ memory w' !! l = Some table'
     /\ table' !! "notify_characteristics_cb" = Some fn_on_notify_cb
     /\ (forall field : string,
           field <> "notify_characteristics_cb" ->
           table' !! field = table !! field)
     /\ (forall l' : positive, l' <> l -> memory w' !! l' = memory w !! l')
     /\ g_pipe_fd w' = g_pipe_fd w
     /\ pipe_writes w' = pipe_writes w)
  /\ adapter_get_callbacks None w = Done w.
Proof.
  intros Hl. split; [|reflexivity].
  unfold adapter_get_callbacks. rewrite Hl.
  eexists _, _. split; [reflexivity|]. cbn [memory g_pipe_fd pipe_writes].
  split; [apply lookup_insert_eq|].
  split; [apply lookup_insert_eq|].
  split; [|split; [|done]].
  - intros field Hne. by rewrite lookup_insert_ne.
  - intros l' Hne. by rewrite lookup_insert_ne.
Qed.

Lemma adapter_get_callbacks_frame_witness :
  let table : gmap string fn_ptr :=
    {[ "notify_characteristics_cb" := fn_other 1;
       "on_ble_gattc_service_discovered_cb" := fn_other 2 ]} in
  let w := {| g_pipe_fd := 3; pipe_writes := [];
              memory := {[ 5%positive := table ]} |} in
  memory w !! 5%positive = Some table
  /\ (exists w' table',
        adapter_get_callbacks (Some 5%positive) w = Done w'
        /\ memory w' !! 5%positive = Some table'
        /\ table' !! "notify_characteristics_cb" = Some fn_on_notify_cb
        /\ (forall field : string,
              field <> "notify_characteristics_cb" ->
              table' !! field = table !! field)
        /\ (forall l' : positive,
              l' <> 5%positive -> memory w' !! l' = memory w !! l')
        /\ g_pipe_fd w' = g_pipe_fd w
        /\ pipe_writes w' = pipe_writes w)
  /\ adapter_get_callbacks None w = Done w.
Proof.
  intros table w. split; [reflexivity|].
  apply (adapter_get_callbacks_frame 5 table w). reflexivity.
Defined.

(** C10. Setting the pipe twice to the same descriptor leaves the adapter
    in the state that setting it once does; hence every notification
    that follows, and every sequence of calls that follows, behaves the
    same in both cases. This holds for every descriptor, valid or not. *)
Theorem set_pipe_idempotent `{P : platform} (fd : Z) (w : world) :
  adapter_set_pipe fd (adapter_set_pipe fd w) = adapter_set_pipe fd w
  /\ (forall (h : Z) (gc : bleGattCharacteristicsValue_t),
        on_notify_cb h gc (adapter_set_pipe fd (adapter_set_pipe fd w))
        = on_notify_cb h gc (adapter_set_pipe fd w))
  /\ (forall calls : list call,
        run (call_set_pipe fd :: call_set_pipe fd :: calls) w
        = run (call_set_pipe fd :: calls) w).
Proof.
  assert (adapter_set_pipe fd (adapter_set_pipe fd w) = adapter_set_pipe fd w)
    as Hsame by reflexivity.
  split; [exact Hsame|]. split.
  - intros h gc. by rewrite Hsame.
  - intros calls. cbn [run step mbind outcome_bind]. by rewrite Hsame.
Qed.


(** * Further properties of the adapter *)

(** ** Helpers *)

Lemma to_uint16_wrapped z : 65536 <= z < 131072 -> to_uint16 z = z - 65536.
Proof.
  intros Hz. unfold to_uint16. symmetry.
  apply (Z.mod_unique z 65536 1); lia.
Qed.



Section SequenceFacts.

Context {P : platform}.

Local Abbreviation hsize := sizeof_bleConnHandle.

Lemma head_notify_frame h payload :
  head (notify_frame h payload) = Some EVENT_NOTIFY.
Proof.
  unfold notify_frame, header_repr. cbn [type].
  by rewrite ReprFacts.object_repr_1.
Qed.

(** One call adds at most one write, a well-formed frame, and only a
    notification adds any. *)
Lemma step_effect c w w' :
  step c w = Done w' ->
  exists new,
    pipe_writes w' = pipe_writes w ++ new
    /\ (length new <= notify_count [c])%nat
    /\ Forall frame_ok new.
Proof.
  destruct c as [fd | h gc | p]; cbn [step notify_count].
  - intros Hs. injection Hs as <-. exists []. simpl.
    rewrite app_nil_r. repeat split; [lia | constructor].
  - intros Hs. pose proof (on_notify_cb_result h gc w) as Hres.
    rewrite Hs in Hres. remember (Done w') as r eqn:Hr.
    destruct Hres as [ | region Hfd Hd Hsrc Hfit | u Hfd Hd ].
    + injection Hr as <-. exists []. rewrite app_nil_r.
      repeat split; [simpl; lia | constructor].
    + injection Hr as <-. eexists [_]. split; [reflexivity|].
      split; [simpl; lia|]. constructor; [|constructor].
      assert (0 <= to_uint16 (blob_size (blobValue gc))) as Hpos
        by (apply Z.mod_pos_bound; lia).
      unfold frame_ok. cbn [w_fd w_bytes].
      rewrite length_notify_frame, length_take, head_notify_frame.
      repeat split; lia.
    + discriminate Hr.
  - unfold adapter_get_callbacks. destruct p as [l|].
    + destruct (memory w !! l); [|discriminate].
      intros Hs. injection Hs as <-. exists []. simpl.
      rewrite app_nil_r. repeat split; [lia | constructor].
    + intros Hs. injection Hs as <-. exists []. simpl.
      rewrite app_nil_r. repeat split; [lia | constructor].
Qed.

Lemma run_cons c cs w :
  run (c :: cs) w = (w' ← step c w; run cs w').
Proof. reflexivity. Qed.

Lemma notify_count_cons c cs :
  notify_count (c :: cs) = (notify_count [c] + notify_count cs)%nat.
Proof. by destruct c. Qed.

Lemma run_effect cs w w' :
  run cs w = Done w' ->
  exists new,
    pipe_writes w' = pipe_writes w ++ new
    /\ (length new <= notify_count cs)%nat
    /\ Forall frame_ok new.
Proof.
  revert w. induction cs as [|c cs IH]; intros w Hrun.
  - injection Hrun as <-. exists []. rewrite app_nil_r.
    repeat split; [simpl; lia | constructor].
  - rewrite run_cons in Hrun.
    destruct (step c w) as [w1|u] eqn:Hstep; [|discriminate].
    cbn [mbind outcome_bind] in Hrun.
    destruct (step_effect c w w1 Hstep) as (new1 & Hw1 & Hn1 & Hok1).
    destruct (IH w1 Hrun) as (new2 & Hw2 & Hn2 & Hok2).
    exists (new1 ++ new2). split; [|split].
    + by rewrite Hw2, Hw1, app_assoc.
    + rewrite length_app, notify_count_cons. lia.
    + by apply Forall_app.
Qed.

(** A call that keeps the pipe closed, on a closed pipe, writes nothing
    and leaves the pipe closed. *)
Lemma step_closed c w w' :
  g_pipe_fd w < 0 -> keeps_pipe_closed c -> step c w = Done w' ->
  g_pipe_fd w' < 0 /\ pipe_writes w' = pipe_writes w.
Proof.
  intros Hfd Hc. destruct c as [fd | h gc | p]; cbn [step].
  - intros Hs. injection Hs as <-. simpl in *. done.
  - rewrite on_notify_cb_no_pipe by done. intros Hs. by injection Hs as <-.
  - unfold adapter_get_callbacks. destruct p as [l|].
    + destruct (memory w !! l); [|discriminate].
      intros Hs. by injection Hs as <-.
    + intros Hs. by injection Hs as <-.
Qed.

(** Notifications that all fit, on an open pipe: each one is framed. *)
Lemma run_notify_calls ns w :
  0 <= g_pipe_fd w ->
  Forall (fun n => 3 + Z.of_nat hsize + 2 + Z.of_nat (length n.2) <= 512) ns ->
  run (notify_calls ns) w
  = Done {| g_pipe_fd := g_pipe_fd w;
            pipe_writes :=
              pipe_writes w
              ++ map (fun n => {| w_fd := g_pipe_fd w;
                                  w_bytes := notify_frame n.1 n.2 |}) ns;
            memory := memory w |}.
Proof.
  intros Hfd Hfit. revert w Hfd.
  induction Hfit as [|n ns Hn Hns IH]; intros w Hfd.
  - simpl. rewrite app_nil_r. by destruct w.
  - unfold notify_calls. cbn [map]. rewrite run_cons. cbn [step].
    rewrite on_notify_cb_frames_payload by done.
    cbn [mbind outcome_bind].
    fold (notify_calls ns). rewrite IH by done.
    cbn [emit g_pipe_fd pipe_writes memory].
    by rewrite <- app_assoc.
Qed.

Lemma wire_decode_many_frames ns rest :
  Forall (fun n => Z.of_nat hsize + 2 + Z.of_nat (length n.2) <= 65535) ns ->
  wire_decode_many (length ns)
    (concat (map (fun n => notify_frame n.1 n.2) ns) ++ rest)
  = Some (map (fun n => decoded n.1 n.2) ns, rest).
Proof.
  induction 1 as [|n ns Hn Hns IH]; [reflexivity|].
  cbn [length map concat wire_decode_many].
  rewrite <- app_assoc, wire_decode_notify_frame by done.
  cbn [mbind option_bind]. rewrite IH. reflexivity.
Qed.

End SequenceFacts.

(** ** What one notification does *)

(** X1. With the pipe open and a handle size that leaves room in the
    buffer, the size of the payload alone decides what a notification
    does: up to 512 bytes of frame it is written whole; beyond that it is
    dropped as long as sizeof(handle) + 2 + len still fits 16 bits; and
    when that sum exceeds 65535 the copies overrun the buffer. *)
Theorem notify_outcome_by_size `{P : platform} (h : Z) (payload : list Z)
    (w : world) :
  0 <= g_pipe_fd w ->
  3 + Z.of_nat sizeof_bleConnHandle + 2 <= 512 ->
  Z.of_nat (length payload) <= 65535 ->
  (3 + Z.of_nat sizeof_bleConnHandle + 2 + Z.of_nat (length payload) <= 512 ->
   on_notify_cb h (notification payload) w
   = Done (emit w (g_pipe_fd w) (notify_frame h payload)))
  /\ (512 < 3 + Z.of_nat sizeof_bleConnHandle + 2 + Z.of_nat (length payload) ->
      Z.of_nat sizeof_bleConnHandle + 2 + Z.of_nat (length payload) <= 65535 ->
      on_notify_cb h (notification payload) w = Done w)
  /\ (65535 < Z.of_nat sizeof_bleConnHandle + 2 + Z.of_nat (length payload) ->
      on_notify_cb h (notification payload) w = Undefined BufferOverflow).
Proof.
  intros Hfd Hroom Hlen. split; [|split].
  - intros Hfit. by apply on_notify_cb_frames_payload.
  - intros Hbig Hnowrap. by apply on_notify_cb_drops_oversize.
  - intros Hwrap.
    apply (on_notify_cb_overflows h (notification payload) w payload);
      [done | reflexivity | | ].
    + unfold check_rejects. change sizeof_event_header_t with 3.
      rewrite blob_size_notification.
      rewrite (to_uint16_small (Z.of_nat (length payload))) by lia.
      rewrite to_uint16_wrapped by lia. lia.
    + rewrite blob_size_notification, to_uint16_small by lia. lia.
Qed.

Lemma notify_outcome_by_size_witness :
  0 <= g_pipe_fd (adapter_set_pipe 3 initial_world)
  /\ 3 + Z.of_nat (@sizeof_bleConnHandle kindle) + 2 <= 512
  /\ Z.of_nat (length [170; 187; 204]) <= 65535
  /\ (3 + Z.of_nat (@sizeof_bleConnHandle kindle) + 2
        + Z.of_nat (length [170; 187; 204]) <= 512 ->
      on_notify_cb (P := kindle) 7 (notification [170; 187; 204])
        (adapter_set_pipe 3 initial_world)
      = Done (emit (adapter_set_pipe 3 initial_world) 3
                (notify_frame (P := kindle) 7 [170; 187; 204]))).
Proof.
  split; [simpl; lia|]. split; [simpl; lia|]. split; [simpl; lia|].
  apply (notify_outcome_by_size (P := kindle) 7 [170; 187; 204]
           (adapter_set_pipe 3 initial_world)); simpl; lia.
Defined.

(** X2. The frame carries exactly blobValue.size bytes of data, the
    first ones at the data pointer, also when more bytes are readable
    there. *)
Theorem notify_sends_size_bytes `{P : platform} (h : Z)
    (gc : bleGattCharacteristicsValue_t) (w : world) (region : list Z) :
  0 <= g_pipe_fd w ->
  blob_data (blobValue gc) = Some region ->
  0 <= blob_size (blobValue gc) <= Z.of_nat (length region) ->
  3 + Z.of_nat sizeof_bleConnHandle + 2 + blob_size (blobValue gc) <= 512 ->
  on_notify_cb h gc w
  = Done (emit w (g_pipe_fd w)
            (notify_frame h (take (Z.to_nat (blob_size (blobValue gc))) region)))
  /\ Z.of_nat (length (take (Z.to_nat (blob_size (blobValue gc))) region))
     = blob_size (blobValue gc).
Proof.
  intros Hfd Hd Hsize Hfit. split.
  - rewrite (on_notify_cb_sends h gc w region); try done;
      rewrite to_uint16_small by lia; try lia. done.
  - rewrite length_take. lia.
Qed.

Lemma notify_sends_size_bytes_witness :
  let gc := {| blobValue := {| blob_size := 2;
                               blob_data := Some [170; 187; 204] |} |} in
  let w := adapter_set_pipe 3 initial_world in
  0 <= g_pipe_fd w
  /\ blob_data (blobValue gc) = Some [170; 187; 204]
  /\ 0 <= blob_size (blobValue gc) <= Z.of_nat (length [170; 187; 204])
  /\ 3 + Z.of_nat (@sizeof_bleConnHandle kindle) + 2
       + blob_size (blobValue gc) <= 512
  /\ on_notify_cb (P := kindle) 7 gc w
     = Done (emit w 3 [1; 8; 0; 7; 0; 0; 0; 2; 0; 170; 187])
  /\ Z.of_nat (length (take (Z.to_nat 2) [170; 187; 204])) = 2.
Proof.
  intros gc w.
  split; [simpl; lia|]. split; [reflexivity|].
  split; [simpl; lia|]. split; [simpl; lia|].
  apply (notify_sends_size_bytes (P := kindle) 7 gc w [170; 187; 204]);
    [simpl; lia | reflexivity | simpl; lia | simpl; lia].
Defined.

(** X3. A payload of size zero whose data pointer is not null is not
    dropped: the frame is the header with length sizeof(handle) + 2, the
    handle, and a data length of two zero bytes, 3 + sizeof(handle) + 2
    bytes in all. *)
Theorem empty_payload_frame `{P : platform} (h : Z)
    (gc : bleGattCharacteristicsValue_t) (w : world) (region : list Z) :
  0 <= g_pipe_fd w ->
  3 + Z.of_nat sizeof_bleConnHandle + 2 <= 512 ->
  blob_data (blobValue gc) = Some region ->
  blob_size (blobValue gc) = 0 ->
  exists frame,
    on_notify_cb h gc w = Done (emit w (g_pipe_fd w) frame)
    /\ frame
       = EVENT_NOTIFY
         :: Repr.object_repr order 2 (Z.of_nat sizeof_bleConnHandle + 2)
         ++ Repr.object_repr order sizeof_bleConnHandle h ++ [0; 0]
    /\ Z.of_nat (length frame) = 3 + Z.of_nat sizeof_bleConnHandle + 2.
Proof.
  intros Hfd Hroom Hd Hzero.
  exists (notify_frame h []). split; [|split].
  - rewrite (on_notify_cb_sends h gc w region); try done;
      rewrite Hzero; try (vm_compute; discriminate); [done | | ].
    + change (to_uint16 0) with 0. lia.
    + change (to_uint16 0) with 0. lia.
  - unfold notify_frame, header_repr. cbn [type len length].
    rewrite ReprFacts.object_repr_1, Z.add_0_r, app_nil_r.
    by destruct order.
  - rewrite length_notify_frame. simpl. lia.
Qed.

Lemma empty_payload_frame_witness :
  let gc := {| blobValue := {| blob_size := 0; blob_data := Some [170] |} |} in
  let w := adapter_set_pipe 3 initial_world in
  0 <= g_pipe_fd w
  /\ 3 + Z.of_nat (@sizeof_bleConnHandle kindle) + 2 <= 512
  /\ blob_data (blobValue gc) = Some [170]
  /\ blob_size (blobValue gc) = 0
  /\ exists frame,
       on_notify_cb (P := kindle) 7 gc w = Done (emit w 3 frame)
       /\ frame = [1; 6; 0; 7; 0; 0; 0; 0; 0]
       /\ Z.of_nat (length frame) = 9.
Proof.
  intros gc w.
  split; [simpl; lia|]. split; [simpl; lia|].
  split; [reflexivity|]. split; [reflexivity|].
  apply (empty_payload_frame (P := kindle) 7 gc w [170]);
    [simpl; lia | simpl; lia | reflexivity | reflexivity].
Defined.

(** ** What sequences of calls do *)

(** X4. Whatever calls are made, the writes already issued stay as they
    were and new ones are appended after them, at most one for each
    notification: nothing is rewritten, split in several writes or
    retried. *)
Theorem run_appends_writes `{P : platform} (cs : list call) (w w' : world) :
  run cs w = Done w' ->
  exists new,
    pipe_writes w' = pipe_writes w ++ new
    /\ (length new <= notify_count cs)%nat.
Proof.
  intros Hrun. destruct (run_effect cs w w' Hrun) as (new & Hw & Hn & _).
  by exists new.
Qed.

Lemma run_appends_writes_witness :
  let cs := [call_on_notify 7 (notification [170]); call_set_pipe 4;
             call_get_callbacks None; call_on_notify 7 (notification [187])] in
  let w := adapter_set_pipe 3 initial_world in
  let w' := {| g_pipe_fd := 4;
               pipe_writes := [{| w_fd := 3; w_bytes := [1; 7; 0; 7; 0; 0; 0; 1; 0; 170] |};
                               {| w_fd := 4; w_bytes := [1; 7; 0; 7; 0; 0; 0; 1; 0; 187] |}];
               memory := ∅ |} in
  run (P := kindle) cs w = Done w'
  /\ exists new,
       pipe_writes w' = pipe_writes w ++ new
       /\ (length new <= notify_count cs)%nat.
Proof.
  intros cs w w'. split; [reflexivity|].
  apply (run_appends_writes (P := kindle) cs w w'). reflexivity.
Defined.

(** X5. Every write the adapter issues is one notify frame: it goes to a
    descriptor that is not negative, starts with the notify tag, has at
    least the 3 + sizeof(handle) + 2 bytes of header, handle and data
    length, and at most the 512 bytes of the buffer. This is kept by
    every sequence of calls that returns. *)
Theorem run_writes_are_frames `{P : platform} (cs : list call) (w w' : world) :
  Forall frame_ok (pipe_writes w) ->
  run cs w = Done w' ->
  Forall frame_ok (pipe_writes w').
Proof.
  intros Hok Hrun. destruct (run_effect cs w w' Hrun) as (new & -> & _ & Hnew).
  by apply Forall_app.
Qed.

Lemma run_writes_are_frames_witness :
  let cs := [call_set_pipe 3; call_on_notify 7 (notification [170]);
             call_on_notify 7 (notification (replicate 600 0))] in
  let w' := {| g_pipe_fd := 3;
               pipe_writes := [{| w_fd := 3; w_bytes := [1; 7; 0; 7; 0; 0; 0; 1; 0; 170] |}];
               memory := ∅ |} in
  Forall (frame_ok (P := kindle)) (pipe_writes initial_world)
  /\ run (P := kindle) cs initial_world = Done w'
  /\ Forall (frame_ok (P := kindle)) (pipe_writes w').
Proof.
  intros cs w'. split; [constructor|]. split; [reflexivity|].
  apply (run_writes_are_frames (P := kindle) cs initial_world w');
    [constructor | reflexivity].
Defined.

(** X6. While the descriptor is negative and no call sets one that is
    not, nothing is written, whatever notifications arrive, and the
    descriptor stays negative. *)
Theorem closed_pipe_stays_silent `{P : platform} (cs : list call)
    (w w' : world) :
  g_pipe_fd w < 0 ->
  Forall keeps_pipe_closed cs ->
  run cs w = Done w' ->
  pipe_writes w' = pipe_writes w /\ g_pipe_fd w' < 0.
Proof.
  intros Hfd Hcs. revert w Hfd.
  induction Hcs as [|c cs Hc Hcs IH]; intros w Hfd Hrun.
  - by injection Hrun as <-.
  - rewrite run_cons in Hrun.
    destruct (step c w) as [w1|u] eqn:Hstep; [|discriminate].
    cbn [mbind outcome_bind] in Hrun.
    destruct (step_closed c w w1 Hfd Hc Hstep) as [Hfd1 Hw1].
    destruct (IH w1 Hfd1 Hrun) as [Hw' Hfd'].
    split; [congruence | done].
Qed.

Lemma closed_pipe_stays_silent_witness :
  let cs := [call_on_notify 7 (notification [170]); call_set_pipe (-5);
             call_get_callbacks None; call_on_notify 9 (notification [])] in
  let w' := adapter_set_pipe (-5) initial_world in
  g_pipe_fd initial_world < 0
  /\ Forall keeps_pipe_closed cs
  /\ run (P := kindle) cs initial_world = Done w'
  /\ pipe_writes w' = pipe_writes initial_world /\ g_pipe_fd w' < 0.
Proof.
  intros cs w'. split; [simpl; lia|].
  split; [repeat constructor; simpl; lia|]. split; [reflexivity|].
  apply (closed_pipe_stays_silent (P := kindle) cs initial_world w');
    [simpl; lia | repeat constructor; simpl; lia | reflexivity].
Defined.

(** X7. Frames written one after the other need no delimiter: when
    notifications that all fit the buffer arrive on an open pipe, each is
    written as one frame, in order, and the consumer reading the
    concatenated bytes frame by frame gets back every handle and every
    payload, in order, and stops where the last frame ends. *)
Theorem notifications_decode_in_order `{P : platform}
    (ns : list (Z * list Z)) (w : world) (rest : list Z) :
  0 <= g_pipe_fd w ->
  Forall (fun n => 3 + Z.of_nat sizeof_bleConnHandle + 2
                   + Z.of_nat (length n.2) <= 512) ns ->
  exists w' new,
    run (notify_calls ns) w = Done w'
    /\ pipe_writes w' = pipe_writes w ++ new
    /\ length new = length ns
    /\ wire_decode_many (length ns) (concat (map w_bytes new) ++ rest)
       = Some (map (fun n => decoded n.1 n.2) ns, rest).
Proof.
  intros Hfd Hfit. eexists _, _.
  split; [by apply run_notify_calls|]. cbn [pipe_writes].
  split; [reflexivity|]. split; [by rewrite length_map|].
  rewrite map_map. cbn [w_bytes].
  apply wire_decode_many_frames.
  eapply Forall_impl; [exact Hfit|]. intros n Hn. simpl in Hn. lia.
Qed.

Lemma notifications_decode_in_order_witness :
  let ns := [(7, [170; 187]); (8, []); (7, [204])] in
  let w := adapter_set_pipe 3 initial_world in
  0 <= g_pipe_fd w
  /\ Forall (fun n => 3 + Z.of_nat (@sizeof_bleConnHandle kindle) + 2
                      + Z.of_nat (length n.2) <= 512) ns
  /\ exists w' new,
       run (P := kindle) (notify_calls ns) w = Done w'
       /\ pipe_writes w' = pipe_writes w ++ new
       /\ length new = length ns
       /\ wire_decode_many (P := kindle) (length ns)
            (concat (map w_bytes new) ++ [1; 2])
          = Some (map (fun n => decoded (P := kindle) n.1 n.2) ns, [1; 2]).
Proof.
  intros ns w. split; [simpl; lia|].
  split; [repeat constructor; simpl; lia|].
  apply (notifications_decode_in_order (P := kindle) ns w [1; 2]);
    [simpl; lia | repeat constructor; simpl; lia].
Defined.

(** X8. Setting the pipe again redirects or disables the output from
    then on and leaves what was written before untouched: of two
    notifications that fit, one after each [adapter_set_pipe], the first
    goes to the first descriptor and the second to the second one, or
    nowhere when the second descriptor is negative. *)
Theorem redirected_pipe `{P : platform} (fd1 fd2 h1 h2 : Z)
    (p1 p2 : list Z) (w : world) :
  0 <= fd1 ->
  3 + Z.of_nat sizeof_bleConnHandle + 2 + Z.of_nat (length p1) <= 512 ->
  3 + Z.of_nat sizeof_bleConnHandle + 2 + Z.of_nat (length p2) <= 512 ->
  run [call_set_pipe fd1; call_on_notify h1 (notification p1);
       call_set_pipe fd2; call_on_notify h2 (notification p2)] w
  = Done {| g_pipe_fd := fd2;
            pipe_writes :=
              pipe_writes w
              ++ {| w_fd := fd1; w_bytes := notify_frame h1 p1 |}
                 :: (if fd2 <? 0 then []
                     else [{| w_fd := fd2; w_bytes := notify_frame h2 p2 |}]);
            memory := memory w |}.
Proof.
  intros Hfd1 Hfit1 Hfit2.
  rewrite run_cons. cbn [step mbind outcome_bind].
  rewrite run_cons. cbn [step].
  rewrite on_notify_cb_frames_payload by done.
  cbn [mbind outcome_bind].
  rewrite run_cons. cbn [step mbind outcome_bind].
  rewrite run_cons. cbn [step].
  destruct (Z.ltb_spec fd2 0) as [Hneg|Hpos].
  - rewrite on_notify_cb_no_pipe by done. reflexivity.
  - rewrite on_notify_cb_frames_payload by done.
    cbn [mbind outcome_bind run]. unfold emit, adapter_set_pipe.
    cbn [g_pipe_fd pipe_writes memory]. by rewrite <- app_assoc.
Qed.

Lemma redirected_pipe_witness :
  0 <= 3
  /\ 3 + Z.of_nat (@sizeof_bleConnHandle kindle) + 2
       + Z.of_nat (length [170]) <= 512
  /\ 3 + Z.of_nat (@sizeof_bleConnHandle kindle) + 2
       + Z.of_nat (length [187; 204]) <= 512
  /\ run (P := kindle)
       [call_set_pipe 3; call_on_notify 7 (notification [170]);
        call_set_pipe 4; call_on_notify 8 (notification [187; 204])]
       initial_world
     = Done {| g_pipe_fd := 4;
               pipe_writes :=
                 [{| w_fd := 3; w_bytes := [1; 7; 0; 7; 0; 0; 0; 1; 0; 170] |};
                  {| w_fd := 4;
                     w_bytes := [1; 8; 0; 8; 0; 0; 0; 2; 0; 187; 204] |}];
               memory := ∅ |}.
Proof.
  split; [lia|]. split; [simpl; lia|]. split; [simpl; lia|].
  apply (redirected_pipe (P := kindle) 3 4 7 8 [170] [187; 204] initial_world);
    simpl; lia.
Defined.

(** X9. Filling the callback table twice is the same as filling it once:
    the second call stores the same handler in the same slot, whatever
    the slot held before the first call. *)
Theorem adapter_get_callbacks_idempotent (callbacks : option positive)
    (w : world) :
  (w' ← adapter_get_callbacks callbacks w; adapter_get_callbacks callbacks w')
  = adapter_get_callbacks callbacks w.
Proof.
  destruct callbacks as [l|]; [|reflexivity].
  unfold adapter_get_callbacks at 2 3.
  destruct (memory w !! l) as [table|] eqn:Hl; [|reflexivity].
  cbn [mbind outcome_bind]. unfold adapter_get_callbacks.
  cbn [memory g_pipe_fd pipe_writes].
  by rewrite lookup_insert_eq, !insert_insert_eq.
Qed.


